(** * Phase control of [se_custom_binary_periodic.py]

    The script builds a [PeriodicROIManager] and an [EventCoordinator]
    (imported from [util.event_managers]), hands the coordinator's exit
    handlers to the gem5 [Simulator], prints the manager's configuration,
    runs, and reports the elapsed instruction count.  The manager and the
    coordinator are modelled from the spec of the repository; the script
    itself is modelled from its source. *)

From Stdlib Require Import String ZArith List Bool Lia Sorting.Sorted.
Import ListNotations.
Open Scope Z_scope.

(** ** Errors and a small error monad *)

Inductive Error :=
| ConfigurationError
| CoordinationError
| NameError.

Inductive result (A : Type) :=
| Ok : A -> result A
| Err : Error -> result A.
Arguments Ok {A} _.
Arguments Err {A} _.

Definition bind {A B} (r : result A) (f : A -> result B) : result B :=
  match r with
  | Ok a => f a
  | Err e => Err e
  end.

Notation "'let*' p ':=' r 'in' k" := (bind r (fun x => match x with p => k end))
  (at level 200, p pattern, r at level 100, k at level 200).

(** ** Exit causes, execution models, handler results *)

(** The exit events the gem5 kernel raises (a subset of [ExitEvent]). *)
Inductive ExitEvent :=
| MAX_INSTS
| EXIT
| SCHEDULED_TICK
| USER_INTERRUPT.

Definition ExitEvent_eqb (a b : ExitEvent) : bool :=
  match a, b with
  | MAX_INSTS, MAX_INSTS | EXIT, EXIT
  | SCHEDULED_TICK, SCHEDULED_TICK | USER_INTERRUPT, USER_INTERRUPT => true
  | _, _ => false
  end.

(** The two execution models of the switchable processor: KVM to
    fast-forward and the O3 [SkylakeCPU] to simulate. *)
Inductive ModelId := Fast | Detailed.

Record HandlerResult := mkHandlerResult {
  stop : bool;
  nextExecutionModel : option ModelId;
  nextTriggerInstructionCount : option Z
}.

(** ** The periodic ROI manager *)

Record PhaseConfig := mkPhaseConfig {
  ff_interval : Z;
  warmup_interval : Z;
  roi_interval : Z;
  init_ff_interval : Z;
  num_rois : option nat;
  continue_sim : bool
}.

Inductive Phase := InitialFastForward | FastForward | Warmup | ROI | Done.

Record PhaseState := mkPhaseState {
  phase : Phase;
  regions : nat;
  model : ModelId
}.

(** A manager: its configuration, its state, and the instructions retired
    since its own last model switch (what [currentTime()] reports). *)
Record Manager := mkManager {
  cfg : PhaseConfig;
  st : PhaseState;
  insts : Z
}.

(** Modelled from the spec: the construction of [PeriodicROIManager]
    (util/event_managers/roi/periodic.py, not in the source tree).  Every
    interval must be strictly positive; otherwise [ConfigurationError].
    The fresh manager is in [InitialFastForward] on the fast model. *)
Definition new_manager (c : PhaseConfig) : result Manager :=
  if (0 <? ff_interval c) && (0 <? warmup_interval c)
     && (0 <? roi_interval c) && (0 <? init_ff_interval c)
  then Ok (mkManager c (mkPhaseState InitialFastForward 0 Fast) 0)
  else Err ConfigurationError.

(** Modelled from the spec: the first exit trigger a fresh manager
    schedules is the initial fast-forward interval. *)
Definition initial_trigger (m : Manager) : Z := init_ff_interval (cfg m).

(** The exit cause the periodic manager declares interest in. *)
Definition declares (m : Manager) (e : ExitEvent) : bool :=
  ExitEvent_eqb e MAX_INSTS.

(** Whether the configured maximum of regions has been reached: a maximum
    of zero or none means unbounded. *)
Definition max_reached (c : PhaseConfig) (r : nat) : bool :=
  match num_rois c with
  | Some k => (0 <? k)%nat && (k <=? r)%nat
  | None => false
  end.

(** Switching the model resets the manager's own instruction count. *)
Definition switch_to (m : Manager) (p : Phase) (r : nat) (md : ModelId) : Manager :=
  mkManager (cfg m) (mkPhaseState p r md) 0.

Definition move_to (m : Manager) (p : Phase) (r : nat) : Manager :=
  mkManager (cfg m) (mkPhaseState p r (model (st m))) (insts m).

(** Modelled from the spec: the handler of [PeriodicROIManager], one
    transition of the periodic state machine per exit event. *)
Definition handle (m : Manager) (e : ExitEvent) : result (Manager * HandlerResult) :=
  if negb (declares m e) then Err CoordinationError else
  let c := cfg m in
  let r := regions (st m) in
  match phase (st m) with
  | InitialFastForward | FastForward =>
      Ok (switch_to m Warmup r Detailed,
          mkHandlerResult false (Some Detailed) (Some (warmup_interval c)))
  | Warmup =>
      Ok (move_to m ROI r,
          mkHandlerResult false None (Some (roi_interval c)))
  | ROI =>
      let r' := S r in
      if max_reached c r' && negb (continue_sim c) then
        Ok (move_to m Done r', mkHandlerResult true None None)
      else
        Ok (switch_to m FastForward r' Fast,
            mkHandlerResult false (Some Fast) (Some (ff_interval c)))
  | Done => Err CoordinationError
  end.

(** Instructions retired by the kernel are attributed to the manager. *)
Definition retire (n : Z) (m : Manager) : Manager :=
  mkManager (cfg m) (st m) (insts m + n).

(** What one [handle] call leaves observable. *)
Record Step := mkStep {
  s_phase : Phase;
  s_regions : nat;
  s_result : HandlerResult
}.

(** Driving the manager through [n] of its own triggers. *)
Fixpoint drive (n : nat) (m : Manager) : result (Manager * list Step) :=
  match n with
  | O => Ok (m, [])
  | S n' =>
      let* (m1, hr) := handle m MAX_INSTS in
      let* (m2, ss) := drive n' m1 in
      Ok (m2, mkStep (phase (st m1)) (regions (st m1)) hr :: ss)
  end.

(** The kernel side: it runs until the scheduled trigger, raises
    [MAX_INSTS], and schedules the next trigger the handler asks for.
    Records (cumulative instruction count, phase, regions, stop). *)
Fixpoint simulate (fuel : nat) (m : Manager) (cum pending : Z)
  : result (list (Z * Phase * nat * bool)) :=
  match fuel with
  | O => Ok []
  | S fuel' =>
      let cum' := cum + pending in
      let* (m1, hr) := handle (retire pending m) MAX_INSTS in
      let row := (cum', phase (st m1), regions (st m1), stop hr) in
      if stop hr then Ok [row] else
      match nextTriggerInstructionCount hr with
      | Some t =>
          let* rows := simulate fuel' m1 cum' t in Ok (row :: rows)
      | None => Ok [row]
      end
  end.

Definition run_manager (fuel : nat) (m : Manager) :=
  simulate fuel m 0 (initial_trigger m).

(** ** The event coordinator *)

(** A snapshot of simulated progress. *)
Record SimulatedTime := mkSimulatedTime {
  instruction : option Z;
  tick : option Z
}.

(** Modelled from the spec: [currentTime()] of a manager, the
    instructions attributed to it since its own last model switch. *)
Definition current_time (m : Manager) : SimulatedTime :=
  mkSimulatedTime (Some (insts m)) None.

Definition empty_result : HandlerResult := mkHandlerResult false None None.

(** Modelled from the spec: the composition rule of [EventCoordinator]
    for several handlers of one cause: any stop vetoes continuation, the
    last non-empty model and trigger win. *)
Definition compose (acc r : HandlerResult) : HandlerResult :=
  mkHandlerResult (stop acc || stop r)
    (match nextExecutionModel r with
     | Some md => Some md
     | None => nextExecutionModel acc
     end)
    (match nextTriggerInstructionCount r with
     | Some t => Some t
     | None => nextTriggerInstructionCount acc
     end).

Fixpoint last_some {A} (l : list (option A)) : option A :=
  match l with
  | [] => None
  | x :: l' =>
      match last_some l' with
      | Some y => Some y
      | None => x
      end
  end.

Inductive KernelEvent :=
| Retired (n : nat)
| Raised (e : ExitEvent).

Section Coordinator.
(** The interface a manager offers the coordinator. *)
Variable M : Type.
Variable m_handle : M -> ExitEvent -> result (M * HandlerResult).
Variable m_declares : M -> ExitEvent -> bool.
Variable m_insts : M -> Z.
Variable m_retire : Z -> M -> M.

Record Coordinator := mkCoordinator {
  managers : list M;
  carry : Z;
  last_stop_cause : option ExitEvent
}.

(** Modelled from the spec: [get_event_handlers()], the exit handler
    table: for each cause, the positions of the managers declaring it,
    in registration order. *)
Definition get_event_handlers (co : Coordinator) (causes : list ExitEvent)
  : list (ExitEvent * list nat) :=
  map (fun e =>
         (e, map fst (filter (fun p => m_declares (snd p) e)
                             (combine (seq 0 (length (managers co)))
                                      (managers co)))))
      causes.

(** Modelled from the spec: the handlers of one cause run in
    registration order; the results are composed; a manager reporting a
    model switch has its count so far moved into the carry. *)
Fixpoint dispatch (e : ExitEvent) (ms : list M) (handled : bool)
    (acc : HandlerResult) (c : Z) : result (list M * bool * HandlerResult * Z) :=
  match ms with
  | [] => Ok ([], handled, acc, c)
  | m :: ms' =>
      if m_declares m e then
        let* (m', r) := m_handle m e in
        let c' := match nextExecutionModel r with
                  | Some _ => c + m_insts m
                  | None => c
                  end in
        let* (ms'', h, acc', c'') := dispatch e ms' true (compose acc r) c' in
        Ok (m' :: ms'', h, acc', c'')
      else
        let* (ms'', h, acc', c'') := dispatch e ms' handled acc c in
        Ok (m :: ms'', h, acc', c'')
  end.

(** A cause no manager declared is a fatal coordination error. *)
Definition handle_event (co : Coordinator) (e : ExitEvent)
  : result (Coordinator * HandlerResult) :=
  let* (ms, h, r, c) := dispatch e (managers co) false empty_result (carry co) in
  if h then
    Ok (mkCoordinator ms c (if stop r then Some e else last_stop_cause co), r)
  else Err CoordinationError.

(** The results of the handlers of one cause, in registration order. *)
Fixpoint handler_results (e : ExitEvent) (ms : list M) : result (list HandlerResult) :=
  match ms with
  | [] => Ok []
  | m :: ms' =>
      if m_declares m e then
        let* (_, r) := m_handle m e in
        let* rs := handler_results e ms' in
        Ok (r :: rs)
      else handler_results e ms'
  end.

(** Modelled from the spec: [get_current_time()], the global view: the
    carry plus every manager's count since its own last reset. *)
Definition global_instructions (co : Coordinator) : Z :=
  carry co + fold_right (fun m s => m_insts m + s) 0 (managers co).

Definition get_current_time (co : Coordinator) : SimulatedTime :=
  mkSimulatedTime (Some (global_instructions co)) None.

Definition kernel_step (co : Coordinator) (ev : KernelEvent) : result Coordinator :=
  match ev with
  | Retired n =>
      Ok (mkCoordinator (map (m_retire (Z.of_nat n)) (managers co))
                        (carry co) (last_stop_cause co))
  | Raised e =>
      let* (co', _) := handle_event co e in Ok co'
  end.

(** The global instruction count queried after every kernel event of a
    run; a fatal error ends the run. *)
Fixpoint global_trace (co : Coordinator) (evs : list KernelEvent) : list Z :=
  global_instructions co ::
    match evs with
    | [] => []
    | ev :: evs' =>
        match kernel_step co ev with
        | Ok co' => global_trace co' evs'
        | Err _ => []
        end
    end.
End Coordinator.

Arguments mkCoordinator {M} _ _ _.
Arguments managers {M} _.
Arguments carry {M} _.
Arguments last_stop_cause {M} _.

(** The coordinator of the script, over periodic managers. *)
Definition periodic_trace := global_trace Manager handle declares insts retire.
Definition periodic_event := handle_event Manager handle declares insts.

(** A second strategy, used to exercise the composition rule: a manager
    that replays a fixed list of decisions on one cause. *)
Module Scripted.
Record t := mk { cause : ExitEvent; decisions : list HandlerResult; count : Z }.
Definition handle (m : t) (e : ExitEvent) : result (t * HandlerResult) :=
  match decisions m with
  | r :: rs => Ok (mk (cause m) rs (match nextExecutionModel r with
                                    | Some _ => 0 | None => count m end), r)
  | [] => Err CoordinationError
  end.
Definition declares (m : t) (e : ExitEvent) : bool := ExitEvent_eqb e (cause m).
Definition insts (m : t) : Z := count m.
End Scripted.

(** ** The script [se_custom_binary_periodic.py] *)

(** Python values the script handles. *)
Inductive PyVal :=
| PyNone
| PyInt (z : Z)
| PyBool (b : bool)
| PyStr (s : string)
| PyTime (t : SimulatedTime).

(** Python truthiness. *)
Definition truthy (v : PyVal) : bool :=
  match v with
  | PyNone => false
  | PyInt z => negb (z =? 0)
  | PyBool b => b
  | PyStr s => negb (String.eqb s EmptyString)
  | PyTime _ => true
  end.

(** Python's [a or b]. *)
Definition py_or (a b : PyVal) : PyVal := if truthy a then a else b.

Definition py_of_option_Z (o : option Z) : PyVal :=
  match o with Some z => PyInt z | None => PyNone end.

Definition py_of_option_nat (o : option nat) : PyVal :=
  match o with Some k => PyInt (Z.of_nat k) | None => PyNone end.

(** Line 141: [coordinator.get_current_time().instruction or 0]. *)
Definition elapsed_instructions (t : SimulatedTime) : PyVal :=
  py_or (py_of_option_Z (instruction t)) (PyInt 0).

(** The calls the script makes on the gem5 side and on its event
    managers, in the order it makes them. *)
Inductive Call :=
| CreateManager | CreateCoordinator | SetWorkload | GetEventHandlers
| ConstructSimulator | Register | Run | GetCurrentTime
| GetCurrentTick | GetLastExitCause.

(** The script's world: the parsed arguments, the one [roi_manager]
    object (shared by the script and the coordinator), the coordinator's
    own carry, the table installed in the simulator, how often the
    coordinator was registered, the call log and what was printed. *)
Record World := mkWorld {
  w_args : PhaseConfig;
  w_manager : option Manager;
  w_carry : option Z;
  w_sim_table : option (list (ExitEvent * list nat));
  w_registered : nat;
  w_log : list Call;
  w_stdout : list (list PyVal)
}.

Definition ScriptM (A : Type) := World -> result (A * World).

Definition sret {A} (a : A) : ScriptM A := fun w => Ok (a, w).

Definition sbind {A B} (c : ScriptM A) (f : A -> ScriptM B) : ScriptM B :=
  fun w => match c w with Ok (a, w') => f a w' | Err e => Err e end.

Notation "x <- c ;; k" := (sbind c (fun x => k))
  (at level 61, c at next level, right associativity).
Notation "c ;;; k" := (sbind c (fun _ => k))
  (at level 61, right associativity).

Definition set_manager (m : option Manager) (w : World) : World :=
  mkWorld (w_args w) m (w_carry w) (w_sim_table w) (w_registered w)
          (w_log w) (w_stdout w).
Definition set_carry (c : option Z) (w : World) : World :=
  mkWorld (w_args w) (w_manager w) c (w_sim_table w) (w_registered w)
          (w_log w) (w_stdout w).
Definition set_table (t : option (list (ExitEvent * list nat))) (w : World) : World :=
  mkWorld (w_args w) (w_manager w) (w_carry w) t (w_registered w)
          (w_log w) (w_stdout w).
Definition set_registered (n : nat) (w : World) : World :=
  mkWorld (w_args w) (w_manager w) (w_carry w) (w_sim_table w) n
          (w_log w) (w_stdout w).

Definition log (c : Call) : ScriptM unit := fun w =>
  Ok (tt, mkWorld (w_args w) (w_manager w) (w_carry w) (w_sim_table w)
                  (w_registered w) (w_log w ++ [c]) (w_stdout w)).

Definition print (vs : list PyVal) : ScriptM unit := fun w =>
  Ok (tt, mkWorld (w_args w) (w_manager w) (w_carry w) (w_sim_table w)
                  (w_registered w) (w_log w) (w_stdout w ++ [vs])).

Definition the_manager : ScriptM Manager := fun w =>
  match w_manager w with Some m => Ok (m, w) | None => Err NameError end.

(** The coordinator over [[roi_manager]], read from the world. *)
Definition the_coordinator : ScriptM (Coordinator Manager) := fun w =>
  match w_manager w, w_carry w with
  | Some m, Some c => Ok (mkCoordinator [m] c None, w)
  | _, _ => Err NameError
  end.

Definition lift {A} (r : result A) : ScriptM A := fun w =>
  match r with Ok a => Ok (a, w) | Err e => Err e end.

Definition modify (f : World -> World) : ScriptM unit := fun w => Ok (tt, f w).

Definition get_args : ScriptM PhaseConfig := fun w => Ok (w_args w, w).

Definition get_registered : ScriptM nat := fun w => Ok (w_registered w, w).

(** The manager attributes the script reads (lines 79 to 130). *)
Inductive Attr :=
| A_ff_interval | A_warmup_interval | A_roi_interval
| A_init_ff_interval | A_num_rois | A_continue_sim.

Definition getattr (a : Attr) : ScriptM PyVal :=
  m <- the_manager ;;
  sret (match a with
        | A_ff_interval => PyInt (ff_interval (cfg m))
        | A_warmup_interval => PyInt (warmup_interval (cfg m))
        | A_roi_interval => PyInt (roi_interval (cfg m))
        | A_init_ff_interval => PyInt (init_ff_interval (cfg m))
        | A_num_rois => py_of_option_nat (num_rois (cfg m))
        | A_continue_sim => PyBool (continue_sim (cfg m))
        end).

(** [roi_manager.currentTime()]. *)
Definition manager_current_time : ScriptM SimulatedTime :=
  m <- the_manager ;; sret (current_time m).

(** The causes of the exit events gem5 can raise. *)
Definition all_causes := [MAX_INSTS; EXIT; SCHEDULED_TICK; USER_INTERRUPT].

(** Line 55: [PeriodicROIManager()], configured from the parsed
    arguments. *)
Definition PeriodicROIManager : ScriptM unit :=
  a <- get_args ;;
  m <- lift (new_manager a) ;;
  modify (set_manager (Some m)) ;;;
  log CreateManager.

(** Line 56: [EventCoordinator([roi_manager])]. *)
Definition EventCoordinator : ScriptM unit :=
  _ <- the_manager ;;
  modify (set_carry (Some 0)) ;;;
  log CreateCoordinator.

(** Line 62: [board.set_workload(workload)]. *)
Definition set_workload : ScriptM unit := log SetWorkload.

(** Line 67: [coordinator.get_event_handlers()]. *)
Definition coordinator_get_event_handlers : ScriptM (list (ExitEvent * list nat)) :=
  co <- the_coordinator ;;
  log GetEventHandlers ;;;
  sret (get_event_handlers Manager declares co all_causes).

(** Lines 65 to 68: [Simulator(board=board, on_exit_event=...)]. *)
Definition Simulator (tbl : list (ExitEvent * list nat)) : ScriptM unit :=
  modify (set_table (Some tbl)) ;;;
  log ConstructSimulator.

(** Line 69: [coordinator.register(simulator)]. *)
Definition coordinator_register : ScriptM unit :=
  _ <- the_coordinator ;;
  n <- get_registered ;;
  modify (set_registered (S n)) ;;;
  log Register.

(** Lines 72 to 133: printing the configuration. *)
Definition print_info : ScriptM unit :=
  ff <- getattr A_ff_interval ;; print [PyStr "Fast-forward interval"; ff] ;;;
  wu <- getattr A_warmup_interval ;; print [PyStr "Warmup interval"; wu] ;;;
  roi <- getattr A_roi_interval ;; print [PyStr "ROI interval"; roi] ;;;
  iff <- getattr A_init_ff_interval ;; print [PyStr "Initial fast-forward"; iff] ;;;
  nr <- getattr A_num_rois ;;
  print [PyStr "Maximum ROIs"; py_or nr (PyStr "Unlimited")] ;;;
  cs <- getattr A_continue_sim ;; print [PyStr "Continue simulation"; cs].

Fixpoint kernel_run (co : Coordinator Manager) (evs : list KernelEvent)
  : result (Coordinator Manager) :=
  match evs with
  | [] => Ok co
  | ev :: evs' =>
      let* co' := kernel_step Manager handle declares insts retire co ev in
      kernel_run co' evs'
  end.

(** Line 138: [simulator.run()], the kernel raising [evs]. *)
Definition simulator_run (evs : list KernelEvent) : ScriptM unit :=
  log Run ;;;
  co <- the_coordinator ;;
  co' <- lift (kernel_run co evs) ;;
  match managers co' with
  | [m] => modify (set_manager (Some m)) ;;; modify (set_carry (Some (carry co')))
  | _ => lift (Err CoordinationError)
  end.

(** Line 141. *)
Definition coordinator_get_current_time : ScriptM SimulatedTime :=
  co <- the_coordinator ;;
  log GetCurrentTime ;;;
  sret (get_current_time Manager insts co).

(** The whole script, for a kernel that raises [evs]; it returns the
    reported [elapsed_instructions]. *)
Definition script (evs : list KernelEvent) : ScriptM PyVal :=
  PeriodicROIManager ;;;
  EventCoordinator ;;;
  set_workload ;;;
  tbl <- coordinator_get_event_handlers ;;
  Simulator tbl ;;;
  coordinator_register ;;;
  print_info ;;;
  print [PyStr "Beginning simulation!"] ;;;
  simulator_run evs ;;;
  t <- coordinator_get_current_time ;;
  let ei := elapsed_instructions t in
  log GetCurrentTick ;;;
  log GetLastExitCause ;;;
  print [ei] ;;;
  sret ei.

Definition init_world (args : PhaseConfig) : World :=
  mkWorld args None None None O [] [].

(** ** Reference traces *)

(** The phase reached after the [i+1]-th trigger of an unbounded cycle. *)
Fixpoint expected_phase (i : nat) : Phase :=
  match i with
  | O => Warmup
  | S O => ROI
  | S (S O) => FastForward
  | S (S (S i')) => expected_phase i'
  end.

(** The example configuration of the spec. *)
Definition scenario_cfg : PhaseConfig :=
  mkPhaseConfig 500 200 300 1000 (Some 2%nat) false.

Definition stop_cond (c : PhaseConfig) (r : nat) : bool :=
  max_reached c (S r) && negb (continue_sim c).

Definition fresh_or_ff (p : Phase) : Prop := p = InitialFastForward \/ p = FastForward.

Definition sum_insts (ms : list Manager) : Z :=
  fold_right (fun m s => insts m + s) 0 ms.

Definition decision_fast : HandlerResult := mkHandlerResult false (Some Fast) (Some 500).
Definition decision_detailed : HandlerResult := mkHandlerResult true (Some Detailed) None.

(** The six lines lines 72 to 133 print for a manager [m]: the
    maximum is printed through [roi_manager._num_rois or 'Unlimited']. *)
Definition printed_config (m : Manager) : list (list PyVal) :=
  [[PyStr "Fast-forward interval"; PyInt (ff_interval (cfg m))];
   [PyStr "Warmup interval"; PyInt (warmup_interval (cfg m))];
   [PyStr "ROI interval"; PyInt (roi_interval (cfg m))];
   [PyStr "Initial fast-forward"; PyInt (init_ff_interval (cfg m))];
   [PyStr "Maximum ROIs"; py_or (py_of_option_nat (num_rois (cfg m))) (PyStr "Unlimited")];
   [PyStr "Continue simulation"; PyBool (continue_sim (cfg m))]].

(** The instructions the kernel retires along [evs]. *)
Fixpoint total_retired (evs : list KernelEvent) : Z :=
  match evs with
  | [] => 0
  | Retired n :: evs' => Z.of_nat n + total_retired evs'
  | Raised _ :: evs' => total_retired evs'
  end.

(** ** Lemmas on the manager *)

Lemma drive_add : forall a b m,
  drive (a + b) m =
    let* (m1, s1) := drive a m in
    let* (m2, s2) := drive b m1 in
    Ok (m2, s1 ++ s2).
Proof.
  induction a as [|a IH]; intros b m; simpl.
  - destruct (drive b m) as [[m2 s2]|e]; reflexivity.
  - destruct (handle m MAX_INSTS) as [[m1 hr]|e]; simpl; [|reflexivity].
    rewrite IH. destruct (drive a m1) as [[m2 s2]|e]; simpl; [|reflexivity].
    destruct (drive b m2) as [[m3 s3]|e]; reflexivity.
Qed.

Lemma three_steps_continue : forall m,
  fresh_or_ff (phase (st m)) ->
  stop_cond (cfg m) (regions (st m)) = false ->
  exists m',
    drive 3 m = Ok (m',
      [mkStep Warmup (regions (st m))
         (mkHandlerResult false (Some Detailed) (Some (warmup_interval (cfg m))));
       mkStep ROI (regions (st m))
         (mkHandlerResult false None (Some (roi_interval (cfg m))));
       mkStep FastForward (S (regions (st m)))
         (mkHandlerResult false (Some Fast) (Some (ff_interval (cfg m))))])
    /\ cfg m' = cfg m /\ phase (st m') = FastForward
    /\ regions (st m') = S (regions (st m)).
Proof.
  intros [c [p r md] n] Hp Hs; unfold fresh_or_ff, stop_cond in *; simpl in *.
  destruct Hp as [-> | ->]; unfold drive, handle; simpl; rewrite Hs; simpl.
  all: eexists; split; [reflexivity | simpl; auto].
Qed.

Lemma three_steps_stop : forall m,
  fresh_or_ff (phase (st m)) ->
  stop_cond (cfg m) (regions (st m)) = true ->
  exists m' ss,
    drive 3 m = Ok (m', ss ++ [mkStep Done (S (regions (st m)))
                                  (mkHandlerResult true None None)])
    /\ Forall (fun s => stop (s_result s) = false) ss
    /\ phase (st m') = Done /\ regions (st m') = S (regions (st m)).
Proof.
  intros [c [p r md] n] Hp Hs; unfold fresh_or_ff, stop_cond in *; simpl in *.
  destruct Hp as [-> | ->]; unfold drive, handle; simpl; rewrite Hs; simpl.
  all: do 2 eexists; split;
    [ change (?a :: ?b :: [?c]) with ([a; b] ++ [c]); reflexivity
    | split; [repeat constructor | split; reflexivity] ].
Qed.

Lemma drive_cycles : forall j m,
  fresh_or_ff (phase (st m)) ->
  (forall i, (i < j)%nat -> stop_cond (cfg m) (regions (st m) + i) = false) ->
  exists m' ss,
    drive (3 * j) m = Ok (m', ss)
    /\ cfg m' = cfg m
    /\ fresh_or_ff (phase (st m'))
    /\ regions (st m') = (regions (st m) + j)%nat
    /\ Forall (fun s => stop (s_result s) = false) ss
    /\ map s_phase ss = concat (repeat [Warmup; ROI; FastForward] j).
Proof.
  induction j as [|j IH]; intros m Hp Hs.
  - exists m, []. simpl. rewrite Nat.add_0_r. repeat split; auto.
  - replace (3 * S j)%nat with (3 + 3 * j)%nat by lia.
    rewrite drive_add.
    destruct (three_steps_continue m Hp) as (m1 & Hd & Hc & Hp1 & Hr1).
    { rewrite <- (Nat.add_0_r (regions (st m))). apply Hs. lia. }
    rewrite Hd; cbn [bind].
    destruct (IH m1) as (m2 & ss & Hd2 & Hc2 & Hp2 & Hr2 & Hf2 & Hm2).
    { right; exact Hp1. }
    { intros i Hi. rewrite Hc, Hr1.
      replace (S (regions (st m)) + i)%nat with (regions (st m) + S i)%nat by lia.
      apply Hs. lia. }
    rewrite Hd2; cbn [bind].
    eexists m2, _. split; [reflexivity|].
    repeat split.
    + congruence.
    + exact Hp2.
    + lia.
    + repeat constructor; exact Hf2.
    + simpl. rewrite Hm2. reflexivity.
Qed.

(** Fewer than three more triggers from a fast-forward phase neither stop
    nor complete a region. *)
Lemma partial_cycle : forall t m,
  (t < 3)%nat ->
  fresh_or_ff (phase (st m)) ->
  exists m' ss,
    drive t m = Ok (m', ss)
    /\ regions (st m') = regions (st m)
    /\ Forall (fun s => stop (s_result s) = false) ss
    /\ map s_phase ss = firstn t [Warmup; ROI; FastForward].
Proof.
  intros t [c [p r md] n] Ht Hp; unfold fresh_or_ff in Hp; simpl in Hp.
  destruct t as [|[|[|t]]]; [ | | | lia];
    destruct Hp as [-> | ->]; unfold drive, handle; simpl;
    do 2 eexists; (split; [reflexivity | repeat split; repeat constructor]).
Qed.

Lemma new_manager_ok : forall c m,
  new_manager c = Ok m ->
  cfg m = c /\ st m = mkPhaseState InitialFastForward 0 Fast /\ insts m = 0.
Proof.
  unfold new_manager; intros c m H.
  destruct (_ && _); inversion H; subst; auto.
Qed.

Lemma expected_phase_not_initial : forall i, expected_phase i <> InitialFastForward.
Proof.
  fix IH 1. intros [|[|[|i]]]; simpl; try discriminate. apply IH.
Qed.

Lemma expected_phase_shift : forall l s,
  map expected_phase (seq (3 + s) l) = map expected_phase (seq s l).
Proof.
  induction l as [|l IH]; intros s; [reflexivity|].
  simpl. f_equal. apply (IH (S s)).
Qed.

Lemma expected_phase_blocks : forall j t, (t < 3)%nat ->
  concat (repeat [Warmup; ROI; FastForward] j) ++ firstn t [Warmup; ROI; FastForward]
  = map expected_phase (seq 0 (3 * j + t)).
Proof.
  induction j as [|j IH]; intros t Ht.
  - destruct t as [|[|[|t]]]; [reflexivity | reflexivity | reflexivity | lia].
  - replace (3 * S j + t)%nat with (3 + (3 * j + t))%nat by lia.
    simpl. rewrite (IH t Ht), (expected_phase_shift _ 0). reflexivity.
Qed.

(** ** Lemmas on the script *)

Lemma sbind_ok : forall A B (c : ScriptM A) (f : A -> ScriptM B) w b w',
  sbind c f w = Ok (b, w') ->
  exists a w1, c w = Ok (a, w1) /\ f a w1 = Ok (b, w').
Proof.
  unfold sbind; intros A B c f w b w' H.
  destruct (c w) as [[a w1]|e]; [eauto | discriminate].
Qed.

Ltac step H :=
  apply sbind_ok in H;
  let a := fresh "a" in let w1 := fresh "w" in let Hc := fresh "Hc" in
  destruct H as (a & w1 & Hc & H).

Lemma getattr_effect : forall a w v w1,
  getattr a w = Ok (v, w1) -> w1 = w.
Proof.
  intros a w v w1. unfold getattr, sbind, the_manager, sret.
  destruct (w_manager w); [|discriminate]. intros H; inversion H; reflexivity.
Qed.

Lemma print_effect : forall vs w u w1,
  print vs w = Ok (u, w1) ->
  w_log w1 = w_log w /\ w_registered w1 = w_registered w
  /\ w_sim_table w1 = w_sim_table w /\ w_manager w1 = w_manager w
  /\ w_carry w1 = w_carry w.
Proof.
  intros vs w u w1 H. cbv [print] in H. injection H as <- <-. simpl; auto.
Qed.

(** Printing the configuration only writes to the output. *)
Lemma print_info_effect : forall w u w1,
  print_info w = Ok (u, w1) ->
  w_log w1 = w_log w /\ w_registered w1 = w_registered w
  /\ w_sim_table w1 = w_sim_table w /\ w_manager w1 = w_manager w
  /\ w_carry w1 = w_carry w.
Proof.
  intros w u w1 H. unfold print_info in H.
  repeat (step H; first [ apply getattr_effect in Hc; subst
                         | apply print_effect in Hc; destruct Hc as (? & ? & ? & ? & ?) ]).
  apply print_effect in H; destruct H as (? & ? & ? & ? & ?).
  repeat split; congruence.
Qed.

(** * Claims *)

(** C7: Done is terminal.  A manager in [Done] rejects every further
    [handle] call with the fatal [CoordinationError], and driving it any
    further makes no transition. *)
Theorem done_is_terminal : forall m e,
  phase (st m) = Done ->
  handle m e = Err CoordinationError
  /\ forall n, drive (S n) m = Err CoordinationError.
Proof.
  intros m e Hd. unfold handle. rewrite Hd.
  split.
  - destruct (declares m e); reflexivity.
  - intros n. simpl. unfold handle. rewrite Hd. reflexivity.
Qed.

Lemma done_is_terminal_witness :
  phase (st (mkManager scenario_cfg (mkPhaseState Done 2 Detailed) 0)) = Done
  /\ handle (mkManager scenario_cfg (mkPhaseState Done 2 Detailed) 0) MAX_INSTS
     = Err CoordinationError.
Proof.
  split; [reflexivity|].
  apply (done_is_terminal (mkManager scenario_cfg (mkPhaseState Done 2 Detailed) 0)
           MAX_INSTS).
  reflexivity.
Defined.

(** C3: the spec's scenario.  With initFF=1000, ff=500, warmup=200,
    roi=300, at most 2 regions and no continuation, the kernel's triggers
    fall at 1000 (Warmup), 1200 (ROI), 1500 (FastForward, one region),
    2000 (Warmup), 2200 (ROI) and 2500 (Done, two regions, stop), and
    nothing else happens however long the kernel would have run. *)
Theorem scenario_trace : exists m,
  new_manager scenario_cfg = Ok m
  /\ forall fuel,
     run_manager (6 + fuel) m =
       Ok [(1000, Warmup, 0%nat, false); (1200, ROI, 0%nat, false);
           (1500, FastForward, 1%nat, false); (2000, Warmup, 1%nat, false);
           (2200, ROI, 1%nat, false); (2500, Done, 2%nat, true)].
Proof.
  eexists; split; [reflexivity|].
  intros fuel. reflexivity.
Qed.

(** C1: boundedness.  With a maximum of [k > 0] regions and no
    continuation, the [3k]-th trigger (the exit of the [k]-th ROI) moves
    the manager to [Done] with [k] regions and returns [stop = true], and
    no earlier trigger stops.  With continuation, no trigger ever returns
    [stop = true] and after [n] triggers [n / 3] regions are complete,
    past [k]. *)
Theorem boundedness : forall c m k,
  new_manager c = Ok m ->
  num_rois c = Some k ->
  (0 < k)%nat ->
  (continue_sim c = false ->
     exists m' ss s,
       drive (3 * k) m = Ok (m', ss ++ [s])
       /\ phase (st m') = Done /\ regions (st m') = k
       /\ s_phase s = Done /\ stop (s_result s) = true
       /\ Forall (fun s => stop (s_result s) = false) ss)
  /\ (continue_sim c = true ->
     forall n, exists m' ss,
       drive n m = Ok (m', ss)
       /\ Forall (fun s => stop (s_result s) = false) ss
       /\ regions (st m') = (n / 3)%nat).
Proof.
  intros c m k Hm Hk Hpos.
  destruct (new_manager_ok c m Hm) as (Hc & Hst & _).
  assert (Hp0 : fresh_or_ff (phase (st m))) by (rewrite Hst; left; reflexivity).
  assert (Hr0 : regions (st m) = 0%nat) by (rewrite Hst; reflexivity).
  split.
  - intros Hcont. destruct k as [|k]; [lia|].
    replace (3 * S k)%nat with (3 * k + 3)%nat by lia.
    rewrite drive_add.
    destruct (drive_cycles k m Hp0) as (m1 & ss1 & Hd1 & Hc1 & Hp1 & Hr1 & Hf1 & _).
    { intros i Hi. rewrite Hc, Hr0. unfold stop_cond, max_reached.
      rewrite Hk, Hcont. simpl.
      destruct (k <=? i)%nat eqn:E; [apply Nat.leb_le in E; lia | reflexivity]. }
    rewrite Hd1; cbn [bind].
    destruct (three_steps_stop m1 Hp1) as (m2 & ss2 & Hd2 & Hf2 & Hph2 & Hr2).
    { rewrite Hc1, Hc, Hr1, Hr0. unfold stop_cond, max_reached.
      rewrite Hk, Hcont. simpl. rewrite Nat.leb_refl. reflexivity. }
    rewrite Hd2; cbn [bind].
    exists m2, (ss1 ++ ss2), (mkStep Done (S (regions (st m1)))
                                 (mkHandlerResult true None None)).
    rewrite <- app_assoc. repeat split; auto.
    + rewrite Hr2, Hr1, Hr0. reflexivity.
    + apply Forall_app; auto.
  - intros Hcont n.
    assert (Hn : n = (3 * (n / 3) + n mod 3)%nat) by (apply Nat.div_mod; lia).
    replace (drive n m) with (drive (3 * (n / 3) + n mod 3) m) by (rewrite <- Hn; reflexivity).
    rewrite drive_add.
    destruct (drive_cycles (n / 3) m Hp0) as (m1 & ss1 & Hd1 & Hc1 & Hp1 & Hr1 & Hf1 & _).
    { intros i Hi. unfold stop_cond. rewrite Hc, Hcont, andb_false_r. reflexivity. }
    rewrite Hd1; cbn [bind].
    destruct (partial_cycle (n mod 3) m1) as (m2 & ss2 & Hd2 & Hr2 & Hf2 & _);
      [apply Nat.mod_upper_bound; lia | exact Hp1 |].
    rewrite Hd2; cbn [bind].
    exists m2, (ss1 ++ ss2). repeat split.
    + apply Forall_app; auto.
    + rewrite Hr2, Hr1, Hr0. reflexivity.
Qed.

Lemma boundedness_witness :
  new_manager scenario_cfg = Ok (mkManager scenario_cfg
                                   (mkPhaseState InitialFastForward 0 Fast) 0)
  /\ num_rois scenario_cfg = Some 2%nat /\ (0 < 2)%nat
  /\ exists m' ss s,
       drive (3 * 2) (mkManager scenario_cfg (mkPhaseState InitialFastForward 0 Fast) 0)
       = Ok (m', ss ++ [s])
       /\ phase (st m') = Done /\ regions (st m') = 2%nat
       /\ s_phase s = Done /\ stop (s_result s) = true
       /\ Forall (fun s => stop (s_result s) = false) ss.
Proof.
  split; [reflexivity|]. split; [reflexivity|]. split; [lia|].
  apply (boundedness scenario_cfg
           (mkManager scenario_cfg (mkPhaseState InitialFastForward 0 Fast) 0) 2);
    [reflexivity | reflexivity | lia | reflexivity].
Defined.

(** C2: the cycle.  With continuation and no maximum, a fresh manager is
    in [InitialFastForward], and its first [n] triggers visit the phases
    Warmup, ROI, FastForward, Warmup, ROI, FastForward, ... in that order
    (so [InitialFastForward] is never re-entered), for every [n]. *)
Theorem phase_cycle : forall c m,
  new_manager c = Ok m ->
  continue_sim c = true ->
  (num_rois c = None \/ num_rois c = Some 0%nat) ->
  phase (st m) = InitialFastForward
  /\ forall n, exists m' ss,
       drive n m = Ok (m', ss)
       /\ map s_phase ss = map expected_phase (seq 0 n)
       /\ ~ In InitialFastForward (map s_phase ss).
Proof.
  intros c m Hm Hcont _.
  destruct (new_manager_ok c m Hm) as (Hc & Hst & _).
  assert (Hp0 : fresh_or_ff (phase (st m))) by (rewrite Hst; left; reflexivity).
  split; [rewrite Hst; reflexivity|].
  intros n.
  assert (Hn : n = (3 * (n / 3) + n mod 3)%nat) by (apply Nat.div_mod; lia).
  replace (drive n m) with (drive (3 * (n / 3) + n mod 3) m) by (rewrite <- Hn; reflexivity).
  rewrite drive_add.
  destruct (drive_cycles (n / 3) m Hp0) as (m1 & ss1 & Hd1 & _ & Hp1 & _ & _ & Hm1).
  { intros i Hi. unfold stop_cond. rewrite Hc, Hcont, andb_false_r. reflexivity. }
  rewrite Hd1; cbn [bind].
  assert (Ht : (n mod 3 < 3)%nat) by (apply Nat.mod_upper_bound; lia).
  destruct (partial_cycle (n mod 3) m1 Ht Hp1) as (m2 & ss2 & Hd2 & _ & _ & Hm2).
  rewrite Hd2; cbn [bind].
  assert (Hphases : map s_phase (ss1 ++ ss2) = map expected_phase (seq 0 n)).
  { rewrite map_app, Hm1, Hm2, (expected_phase_blocks _ _ Ht), <- Hn. reflexivity. }
  exists m2, (ss1 ++ ss2). split; [reflexivity|]. split; [exact Hphases|].
  rewrite Hphases, in_map_iff. intros (i & Hi & _).
  exact (expected_phase_not_initial i Hi).
Qed.

Lemma phase_cycle_witness :
  new_manager (mkPhaseConfig 500 200 300 1000 None true)
    = Ok (mkManager (mkPhaseConfig 500 200 300 1000 None true)
                    (mkPhaseState InitialFastForward 0 Fast) 0)
  /\ phase (st (mkManager (mkPhaseConfig 500 200 300 1000 None true)
                          (mkPhaseState InitialFastForward 0 Fast) 0))
     = InitialFastForward.
Proof.
  split; [reflexivity|].
  apply (phase_cycle (mkPhaseConfig 500 200 300 1000 None true)
           (mkManager (mkPhaseConfig 500 200 300 1000 None true)
                      (mkPhaseState InitialFastForward 0 Fast) 0));
    [reflexivity | reflexivity | left; reflexivity].
Defined.

Lemma handle_no_config_error : forall m e, handle m e <> Err ConfigurationError.
Proof.
  intros m e. unfold handle.
  destruct (negb (declares m e)); [discriminate|].
  destruct (phase (st m)); try discriminate.
  destruct (_ && _); discriminate.
Qed.

(** C6: configuration errors.  Construction raises [ConfigurationError]
    exactly when one of the four intervals is zero or negative; no
    [handle] call, on any manager, ever raises [ConfigurationError], nor
    does the coordinator's dispatch of an exit event. *)
Theorem config_rejected_at_construction :
  (forall c,
     new_manager c = Err ConfigurationError <->
     (ff_interval c <= 0 \/ warmup_interval c <= 0
      \/ roi_interval c <= 0 \/ init_ff_interval c <= 0))
  /\ (forall m e, handle m e <> Err ConfigurationError)
  /\ (forall co e, periodic_event co e <> Err ConfigurationError).
Proof.
  split; [|split].
  - intros c. unfold new_manager.
    destruct (0 <? ff_interval c) eqn:E1, (0 <? warmup_interval c) eqn:E2,
             (0 <? roi_interval c) eqn:E3, (0 <? init_ff_interval c) eqn:E4;
      simpl; rewrite ?Z.ltb_lt, ?Z.ltb_ge in *;
      split; intros H; try discriminate; try reflexivity; lia.
  - exact handle_no_config_error.
  - intros [ms c l] e. unfold periodic_event, handle_event; simpl.
    assert (Hd : forall ms h acc c,
               dispatch Manager handle declares insts e ms h acc c <> Err ConfigurationError).
    { induction ms0 as [|m ms0 IH]; intros h acc c0; simpl; [discriminate|].
      destruct (declares m e).
      - destruct (handle m e) as [[m' r]|err] eqn:Eh; simpl.
        + destruct (dispatch _ _ _ _ _ _ _ _ _) as [[[[ms' h'] acc'] c']|err] eqn:Ed;
            simpl; [discriminate|].
          intros Heq; inversion Heq; subst. eapply IH. exact Ed.
        + intros Heq; inversion Heq; subst. exact (handle_no_config_error m e Eh).
      - destruct (dispatch _ _ _ _ _ _ _ _ _) as [[[[ms' h'] acc'] c']|err] eqn:Ed;
          simpl; [discriminate|].
        intros Heq; inversion Heq; subst. eapply IH. exact Ed. }
    destruct (dispatch _ _ _ _ _ _ _ _ _) as [[[[ms' h'] acc'] c']|err] eqn:Ed; simpl.
    + destruct h'; discriminate.
    + intros Heq; inversion Heq; subst. eapply Hd. exact Ed.
Qed.

(** ** Lemmas on the coordinator *)

Lemma compose_fold : forall rs acc,
  stop (fold_left compose rs acc) = stop acc || existsb stop rs
  /\ nextExecutionModel (fold_left compose rs acc)
     = match last_some (map nextExecutionModel rs) with
       | Some x => Some x
       | None => nextExecutionModel acc
       end
  /\ nextTriggerInstructionCount (fold_left compose rs acc)
     = match last_some (map nextTriggerInstructionCount rs) with
       | Some x => Some x
       | None => nextTriggerInstructionCount acc
       end.
Proof.
  induction rs as [|r rs IH]; intros acc; simpl.
  - rewrite orb_false_r. split; [reflexivity|].
    split; [destruct (nextExecutionModel acc) | destruct (nextTriggerInstructionCount acc)];
      reflexivity.
  - destruct (IH (compose acc r)) as (H1 & H2 & H3).
    rewrite H1, H2, H3. simpl. split; [symmetry; apply orb_assoc|].
    split.
    + destruct (last_some (map nextExecutionModel rs)); [reflexivity|].
      destruct (nextExecutionModel r); reflexivity.
    + destruct (last_some (map nextTriggerInstructionCount rs)); [reflexivity|].
      destruct (nextTriggerInstructionCount r); reflexivity.
Qed.

Section CoordinatorFacts.
Variable M : Type.
Variable m_handle : M -> ExitEvent -> result (M * HandlerResult).
Variable m_declares : M -> ExitEvent -> bool.
Variable m_insts : M -> Z.

Lemma dispatch_results : forall e ms h acc c ms' h' acc' c',
  dispatch M m_handle m_declares m_insts e ms h acc c = Ok (ms', h', acc', c') ->
  exists rs,
    handler_results M m_handle m_declares e ms = Ok rs
    /\ acc' = fold_left compose rs acc
    /\ h' = h || negb (length rs =? 0)%nat.
Proof.
  intros e ms; induction ms as [|m ms IH]; intros h acc c ms' h' acc' c' Hd; simpl in *.
  - inversion Hd; subst. exists []. rewrite orb_false_r. auto.
  - destruct (m_declares m e).
    + destruct (m_handle m e) as [[m1 r]|err]; simpl in *; [|discriminate].
      destruct (dispatch _ _ _ _ _ _ _ _ _) as [[[[ms1 h1] acc1] c1]|err] eqn:Ed;
        simpl in Hd; [|discriminate].
      inversion Hd; subst.
      destruct (IH _ _ _ _ _ _ _ Ed) as (rs & Hr & Ha & Hh).
      exists (r :: rs). rewrite Hr. simpl. split; [reflexivity|].
      split; [exact Ha|]. rewrite Hh. destruct h; reflexivity.
    + destruct (dispatch _ _ _ _ _ _ _ _ _) as [[[[ms1 h1] acc1] c1]|err] eqn:Ed;
        simpl in Hd; [|discriminate].
      inversion Hd; subst. exact (IH _ _ _ _ _ _ _ Ed).
Qed.
End CoordinatorFacts.

Lemma handle_insts : forall m e m' r,
  handle m e = Ok (m', r) ->
  insts m' = match nextExecutionModel r with Some _ => 0 | None => insts m end.
Proof.
  intros m e m' r. unfold handle.
  destruct (negb (declares m e)); [discriminate|].
  destruct (phase (st m)); try discriminate;
    try (destruct (_ && _));
    intros H; inversion H; subst; reflexivity.
Qed.

Lemma dispatch_preserves_global : forall e ms h acc c ms' h' acc' c',
  dispatch Manager handle declares insts e ms h acc c = Ok (ms', h', acc', c') ->
  c' + sum_insts ms' = c + sum_insts ms.
Proof.
  intros e ms; induction ms as [|m ms IH]; intros h acc c ms' h' acc' c' Hd; simpl in *.
  - inversion Hd; subst. reflexivity.
  - destruct (declares m e).
    + destruct (handle m e) as [[m1 r]|err] eqn:Eh; simpl in *; [|discriminate].
      destruct (dispatch _ _ _ _ _ _ _ _ _) as [[[[ms1 h1] acc1] c1]|err] eqn:Ed;
        simpl in Hd; [|discriminate].
      inversion Hd; subst.
      specialize (IH _ _ _ _ _ _ _ Ed). simpl.
      rewrite (handle_insts _ _ _ _ Eh) in *.
      destruct (nextExecutionModel r); lia.
    + destruct (dispatch _ _ _ _ _ _ _ _ _) as [[[[ms1 h1] acc1] c1]|err] eqn:Ed;
        simpl in Hd; [|discriminate].
      inversion Hd; subst.
      specialize (IH _ _ _ _ _ _ _ Ed). simpl. lia.
Qed.

Lemma sum_insts_retire : forall n ms,
  sum_insts (map (retire n) ms) = sum_insts ms + Z.of_nat (length ms) * n.
Proof.
  intros n ms; induction ms as [|m ms IH]; [reflexivity|].
  change (sum_insts (map (retire n) (m :: ms)))
    with (insts m + n + sum_insts (map (retire n) ms)).
  change (sum_insts (m :: ms)) with (insts m + sum_insts ms).
  rewrite IH, length_cons, Nat2Z.inj_succ. ring.
Qed.

Lemma kernel_step_mono : forall co ev co',
  kernel_step Manager handle declares insts retire co ev = Ok co' ->
  global_instructions Manager insts co <= global_instructions Manager insts co'.
Proof.
  intros [ms c l] ev co' H; unfold global_instructions; destruct ev as [n|e]; simpl in *.
  - inversion H; subst; simpl. fold (sum_insts ms) (sum_insts (map (retire (Z.of_nat n)) ms)).
    rewrite sum_insts_retire.
    assert (0 <= Z.of_nat (length ms) * Z.of_nat n) by (apply Z.mul_nonneg_nonneg; lia).
    lia.
  - unfold handle_event in H; simpl in H.
    destruct (dispatch _ _ _ _ _ _ _ _ _) as [[[[ms1 h1] acc1] c1]|err] eqn:Ed;
      simpl in H; [|discriminate].
    destruct h1; simpl in H; [|discriminate].
    inversion H; subst; simpl.
    apply dispatch_preserves_global in Ed.
    fold (sum_insts ms) (sum_insts ms1). lia.
Qed.

Lemma periodic_trace_lower : forall evs co x,
  x <= global_instructions Manager insts co ->
  Forall (Z.le x) (periodic_trace co evs).
Proof.
  induction evs as [|ev evs IH]; intros co x Hx; unfold periodic_trace; simpl.
  - constructor; [exact Hx | constructor].
  - constructor; [exact Hx|].
    destruct (kernel_step _ _ _ _ _ co ev) as [co'|err] eqn:Ek; [|constructor].
    apply IH. apply kernel_step_mono in Ek. lia.
Qed.

(** C4: composition of handlers of one cause.  When a cause is
    dispatched, the handlers of the managers declaring it run in
    registration order; the composed result stops if any of them stops,
    and its model and trigger are those of the last handler that supplied
    one.  In particular, with A (stop=false, model=fast) registered before
    B (stop=true, model=detailed), the composed result is stop=true,
    model=detailed. *)
Theorem coordinator_composition :
  forall (M : Type) (m_handle : M -> ExitEvent -> result (M * HandlerResult))
         (m_declares : M -> ExitEvent -> bool) (m_insts : M -> Z),
  (forall co e co' R,
     handle_event M m_handle m_declares m_insts co e = Ok (co', R) ->
     exists rs,
       handler_results M m_handle m_declares e (managers co) = Ok rs
       /\ rs <> []
       /\ stop R = existsb stop rs
       /\ nextExecutionModel R = last_some (map nextExecutionModel rs)
       /\ nextTriggerInstructionCount R = last_some (map nextTriggerInstructionCount rs))
  /\ (forall (a b a' b' : M) e ra rb c0 l,
     m_declares a e = true -> m_declares b e = true ->
     m_handle a e = Ok (a', ra) -> m_handle b e = Ok (b', rb) ->
     stop ra = false -> nextExecutionModel ra = Some Fast ->
     stop rb = true -> nextExecutionModel rb = Some Detailed ->
     exists co' R,
       handle_event M m_handle m_declares m_insts (mkCoordinator [a; b] c0 l) e
         = Ok (co', R)
       /\ managers co' = [a'; b']
       /\ stop R = true /\ nextExecutionModel R = Some Detailed).
Proof.
  intros M m_handle m_declares m_insts. split.
  - intros [ms c l] e co' R H. unfold handle_event in H; simpl in *.
    destruct (dispatch _ _ _ _ _ _ _ _ _) as [[[[ms1 h1] acc1] c1]|err] eqn:Ed;
      simpl in H; [|discriminate].
    destruct h1 eqn:Eh; simpl in H; [|discriminate].
    inversion H; subst.
    destruct (dispatch_results M m_handle m_declares m_insts _ _ _ _ _ _ _ _ _ Ed)
      as (rs & Hr & Ha & Hh).
    destruct (compose_fold rs empty_result) as (H1 & H2 & H3).
    exists rs. split; [exact Hr|]. split.
    { intros ->. discriminate. }
    rewrite Ha, H1, H2, H3. simpl. split; [reflexivity|].
    split; [destruct (last_some (map nextExecutionModel rs))
           | destruct (last_some (map nextTriggerInstructionCount rs))]; reflexivity.
  - intros a b a' b' e [sa ma ta] [sb mb tb] c0 l Hda Hdb Ha Hb Hsa Hma Hsb Hmb.
    simpl in Hsa, Hma, Hsb, Hmb; subst.
    unfold handle_event; simpl. rewrite Hda, Ha; simpl. rewrite Hdb, Hb; simpl.
    do 2 eexists. split; [reflexivity|]. simpl. auto.
Qed.

Lemma coordinator_composition_witness :
  exists co' R,
    handle_event Scripted.t Scripted.handle Scripted.declares Scripted.insts
      (mkCoordinator [Scripted.mk MAX_INSTS [decision_fast] 0;
                      Scripted.mk MAX_INSTS [decision_detailed] 0] 0 None) MAX_INSTS
      = Ok (co', R)
    /\ managers co' = [Scripted.mk MAX_INSTS [] 0; Scripted.mk MAX_INSTS [] 0]
    /\ stop R = true /\ nextExecutionModel R = Some Detailed.
Proof.
  apply (proj2 (coordinator_composition Scripted.t Scripted.handle Scripted.declares
                  Scripted.insts)
           (Scripted.mk MAX_INSTS [decision_fast] 0)
           (Scripted.mk MAX_INSTS [decision_detailed] 0)
           (Scripted.mk MAX_INSTS [] 0) (Scripted.mk MAX_INSTS [] 0)
           MAX_INSTS decision_fast decision_detailed 0 None);
    reflexivity.
Defined.

(** C5: monotonicity.  Along every run of the script's coordinator, that
    is every sequence of retired instructions and dispatched exit events
    (model switches included), the global instruction count queried after
    each event never decreases: any later query is at least any earlier
    one. *)
Theorem global_time_monotone : forall co evs,
  StronglySorted Z.le (periodic_trace co evs).
Proof.
  intros co evs. revert co.
  induction evs as [|ev evs IH]; intros co; unfold periodic_trace; simpl.
  - repeat constructor.
  - destruct (kernel_step _ _ _ _ _ co ev) as [co'|err] eqn:Ek.
    + constructor; [apply IH|].
      apply periodic_trace_lower. apply kernel_step_mono in Ek. exact Ek.
    + repeat constructor.
Qed.

Lemma config_rejected_at_construction_witness :
  new_manager (mkPhaseConfig 500 0 300 1000 (Some 2%nat) false) = Err ConfigurationError.
Proof.
  apply (proj1 config_rejected_at_construction).
  right; left; simpl; lia.
Defined.

(** C10: the reported instruction count.  [elapsed_instructions] is the
    snapshot's instruction count when that count is truthy, and [0] when
    it is [None] or [0]; it is always an integer. *)
Theorem elapsed_instructions_default : forall t,
  (truthy (py_of_option_Z (instruction t)) = true ->
     elapsed_instructions t = py_of_option_Z (instruction t))
  /\ (truthy (py_of_option_Z (instruction t)) = false ->
     elapsed_instructions t = PyInt 0)
  /\ exists n, elapsed_instructions t = PyInt n.
Proof.
  intros [[i|] tk]; unfold elapsed_instructions, py_or; simpl.
  - destruct (negb (i =? 0)); repeat split; try discriminate; eauto.
  - repeat split; try discriminate; eauto.
Qed.

Lemma elapsed_instructions_default_witness :
  elapsed_instructions (mkSimulatedTime None None) = PyInt 0
  /\ elapsed_instructions (mkSimulatedTime (Some 2500) None) = PyInt 2500.
Proof.
  split.
  - apply (proj1 (proj2 (elapsed_instructions_default (mkSimulatedTime None None)))).
    reflexivity.
  - apply (proj1 (elapsed_instructions_default (mkSimulatedTime (Some 2500) None))).
    reflexivity.
Defined.

(** C9: read accessors.  Reading a configuration attribute of
    [roi_manager] or its [currentTime()] leaves the whole world unchanged,
    so a second read with nothing in between returns the same value; and
    the configuration printing of lines 72 to 133 leaves the manager (its
    configuration and its state) unchanged. *)
Theorem accessors_read_only :
  (forall a w v w1,
     getattr a w = Ok (v, w1) -> w1 = w /\ getattr a w1 = Ok (v, w1))
  /\ (forall w t w1,
     manager_current_time w = Ok (t, w1) -> w1 = w /\ manager_current_time w1 = Ok (t, w1))
  /\ (forall w u w1,
     print_info w = Ok (u, w1) -> w_manager w1 = w_manager w).
Proof.
  split; [|split].
  - intros a w v w1. unfold getattr, sbind, the_manager, sret.
    destruct (w_manager w) as [m|] eqn:Em; [|discriminate].
    intros H; inversion H; subst. rewrite Em. split; reflexivity.
  - intros w t w1. unfold manager_current_time, sbind, the_manager, sret.
    destruct (w_manager w) as [m|] eqn:Em; [|discriminate].
    intros H; inversion H; subst. rewrite Em. split; reflexivity.
  - intros w u w1. unfold print_info, getattr, sbind, the_manager, sret, print.
    destruct (w_manager w) as [m|] eqn:Em; [|discriminate].
    simpl. rewrite Em. intros H; inversion H; subst. reflexivity.
Qed.

Lemma accessors_read_only_witness :
  getattr A_warmup_interval (init_world scenario_cfg) = Err NameError
  /\ getattr A_warmup_interval
       (set_manager (Some (mkManager scenario_cfg
                             (mkPhaseState InitialFastForward 0 Fast) 0))
                    (init_world scenario_cfg))
     = Ok (PyInt 200, set_manager (Some (mkManager scenario_cfg
                             (mkPhaseState InitialFastForward 0 Fast) 0))
                    (init_world scenario_cfg)).
Proof.
  split; [reflexivity|].
  apply (proj1 accessors_read_only A_warmup_interval
           (set_manager (Some (mkManager scenario_cfg
                                 (mkPhaseState InitialFastForward 0 Fast) 0))
                        (init_world scenario_cfg))).
  reflexivity.
Defined.

(** C8: the setup sequence.  On every run of the script that completes,
    the dispatch table is obtained exactly once, right before the
    simulator is constructed with it; the coordinator is registered
    exactly once, right after; both happen before [simulator.run()]. *)
Theorem script_setup_order : forall args evs v w,
  script evs (init_world args) = Ok (v, w) ->
  w_log w = [CreateManager; CreateCoordinator; SetWorkload; GetEventHandlers;
             ConstructSimulator; Register; Run; GetCurrentTime; GetCurrentTick;
             GetLastExitCause]
  /\ w_registered w = 1%nat
  /\ w_sim_table w = Some [(MAX_INSTS, [0%nat]); (EXIT, []);
                          (SCHEDULED_TICK, []); (USER_INTERRUPT, [])].
Proof.
  intros args evs v w H.
  unfold script in H.
  (* [PeriodicROIManager] *)
  step H. unfold PeriodicROIManager in Hc.
  step Hc. cbv [get_args] in Hc0. injection Hc0 as <- <-.
  step Hc. cbv [lift] in Hc0.
  destruct (new_manager args) as [m|err]; [|discriminate].
  injection Hc0 as <- <-.
  step Hc. cbv [modify] in Hc0. injection Hc0 as <- <-.
  cbv [log] in Hc. injection Hc as <- <-.
  (* [EventCoordinator] *)
  step H. unfold EventCoordinator in Hc.
  step Hc. cbv [the_manager] in Hc0. simpl in Hc0. injection Hc0 as <- <-.
  step Hc. cbv [modify] in Hc0. injection Hc0 as <- <-.
  cbv [log] in Hc. injection Hc as <- <-.
  (* [set_workload] *)
  step H. cbv [set_workload log] in Hc. injection Hc as <- <-.
  (* [coordinator.get_event_handlers()] *)
  step H. unfold coordinator_get_event_handlers in Hc.
  step Hc. cbv [the_coordinator] in Hc0. simpl in Hc0. injection Hc0 as <- <-.
  step Hc. cbv [log] in Hc0. injection Hc0 as <- <-.
  cbv [sret] in Hc. injection Hc as <- <-.
  (* [Simulator(...)] *)
  step H. unfold Simulator in Hc.
  step Hc. cbv [modify] in Hc0. injection Hc0 as <- <-.
  cbv [log] in Hc. injection Hc as <- <-.
  (* [coordinator.register(simulator)] *)
  step H. unfold coordinator_register in Hc.
  step Hc. cbv [the_coordinator] in Hc0. simpl in Hc0. injection Hc0 as <- <-.
  step Hc. cbv [get_registered] in Hc0. injection Hc0 as <- <-.
  step Hc. cbv [modify] in Hc0. injection Hc0 as <- <-.
  cbv [log] in Hc. injection Hc as <- <-.
  (* printing only appends to the output *)
  step H. apply print_info_effect in Hc. destruct Hc as (Hl1 & Hr1 & Ht1 & Hm1 & Hca1).
  step H. cbv [print] in Hc. injection Hc as <- <-.
  (* [simulator.run()] *)
  step H. unfold simulator_run in Hc.
  step Hc. cbv [log] in Hc0. injection Hc0 as <- <-.
  step Hc. cbv [the_coordinator] in Hc0. simpl in Hc0.
  rewrite Hm1, Hca1 in Hc0. simpl in Hc0. injection Hc0 as <- <-.
  step Hc. cbv [lift] in Hc0.
  destruct (kernel_run _ _) as [co'|err]; [|discriminate].
  injection Hc0 as <- <-.
  destruct (managers co') as [|m' [|m'' ms]]; [discriminate | | discriminate].
  step Hc. cbv [modify] in Hc0. injection Hc0 as <- <-.
  cbv [modify] in Hc. injection Hc as <- <-.
  (* reporting *)
  step H. unfold coordinator_get_current_time in Hc.
  step Hc. cbv [the_coordinator] in Hc0. simpl in Hc0. injection Hc0 as <- <-.
  step Hc. cbv [log] in Hc0. injection Hc0 as <- <-.
  cbv [sret] in Hc. injection Hc as <- <-.
  step H. cbv [log] in Hc. injection Hc as <- <-.
  step H. cbv [log] in Hc. injection Hc as <- <-.
  step H. cbv [print] in Hc. injection Hc as <- <-.
  cbv [sret] in H. injection H as <- <-.
  simpl. rewrite Hl1, Hr1, Ht1. simpl. auto.
Qed.

Lemma script_setup_order_witness :
  exists v w,
    script [Retired 1000; Raised MAX_INSTS] (init_world scenario_cfg) = Ok (v, w)
    /\ w_log w = [CreateManager; CreateCoordinator; SetWorkload; GetEventHandlers;
                  ConstructSimulator; Register; Run; GetCurrentTime; GetCurrentTick;
                  GetLastExitCause].
Proof.
  do 2 eexists. split; [vm_compute; reflexivity|].
  refine (proj1 (script_setup_order scenario_cfg [Retired 1000; Raised MAX_INSTS]
                   _ _ _)).
  vm_compute. reflexivity.
Defined.

(** ** Further properties of the script *)

Lemma print_info_appends : forall w m,
  w_manager w = Some m ->
  exists w',
    print_info w = Ok (tt, w')
    /\ w_stdout w' = w_stdout w ++ printed_config m
    /\ w_log w' = w_log w /\ w_registered w' = w_registered w
    /\ w_sim_table w' = w_sim_table w /\ w_manager w' = w_manager w
    /\ w_carry w' = w_carry w.
Proof.
  intros [a mo c t r l o] m Hm; simpl in Hm; subst mo.
  eexists. split; [reflexivity|]. simpl.
  rewrite <- !app_assoc. repeat split.
Qed.



Lemma dispatch_length : forall e ms h acc c ms' h' acc' c',
  dispatch Manager handle declares insts e ms h acc c = Ok (ms', h', acc', c') ->
  length ms' = length ms.
Proof.
  intros e ms; induction ms as [|m ms IH]; intros h acc c ms' h' acc' c' Hd; simpl in *.
  - inversion Hd; reflexivity.
  - destruct (declares m e).
    + destruct (handle m e) as [[m1 r]|err]; simpl in *; [|discriminate].
      destruct (dispatch _ _ _ _ _ _ _ _ _) as [[[[ms1 h1] acc1] c1]|err] eqn:Ed;
        simpl in Hd; [|discriminate].
      inversion Hd; subst. simpl. f_equal. exact (IH _ _ _ _ _ _ _ Ed).
    + destruct (dispatch _ _ _ _ _ _ _ _ _) as [[[[ms1 h1] acc1] c1]|err] eqn:Ed;
        simpl in Hd; [|discriminate].
      inversion Hd; subst. simpl. f_equal. exact (IH _ _ _ _ _ _ _ Ed).
Qed.

Lemma kernel_run_global : forall evs co co',
  kernel_run co evs = Ok co' ->
  global_instructions Manager insts co'
    = global_instructions Manager insts co
      + Z.of_nat (length (managers co)) * total_retired evs
  /\ length (managers co') = length (managers co).
Proof.
  induction evs as [|ev evs IH]; intros co co' H; simpl in H.
  - inversion H; subst. simpl. split; [ring | reflexivity].
  - destruct (kernel_step _ _ _ _ _ co ev) as [co1|err] eqn:Ek; simpl in H; [|discriminate].
    destruct (IH _ _ H) as [Hg Hl]. rewrite Hg, Hl.
    destruct co as [ms c l]; unfold global_instructions in *; destruct ev as [n|e];
      simpl in *.
    + inversion Ek; subst; simpl.
      fold (sum_insts ms) (sum_insts (map (retire (Z.of_nat n)) ms)).
      rewrite sum_insts_retire, length_map. split; [ring | reflexivity].
    + unfold handle_event in Ek; simpl in Ek.
      destruct (dispatch _ _ _ _ _ _ _ _ _) as [[[[ms1 h1] acc1] c1]|err] eqn:Ed;
        simpl in Ek; [|discriminate].
      destruct h1; simpl in Ek; [|discriminate].
      inversion Ek; subst; simpl.
      pose proof (dispatch_preserves_global _ _ _ _ _ _ _ _ _ Ed) as Hp.
      pose proof (dispatch_length _ _ _ _ _ _ _ _ _ Ed) as Hn.
      fold (sum_insts ms) (sum_insts ms1) in *. rewrite Hn. split; [lia | reflexivity].
Qed.

(** What a completed run of the script consists of. *)
Lemma script_inv : forall args evs v w,
  script evs (init_world args) = Ok (v, w) ->
  exists m co' m',
    new_manager args = Ok m
    /\ kernel_run (mkCoordinator [m] 0 None) evs = Ok co'
    /\ managers co' = [m']
    /\ v = elapsed_instructions
             (get_current_time Manager insts (mkCoordinator [m'] (carry co') None))
    /\ w_stdout w = printed_config m ++ [[PyStr "Beginning simulation!"]; [v]].
Proof.
  intros args evs v w H.
  unfold script in H.
  step H. unfold PeriodicROIManager in Hc.
  step Hc. cbv [get_args] in Hc0. injection Hc0 as <- <-.
  step Hc. cbv [lift] in Hc0.
  destruct (new_manager args) as [m|err] eqn:Em; [|discriminate].
  injection Hc0 as <- <-.
  step Hc. cbv [modify] in Hc0. injection Hc0 as <- <-.
  cbv [log] in Hc. injection Hc as <- <-.
  step H. unfold EventCoordinator in Hc.
  step Hc. cbv [the_manager] in Hc0. simpl in Hc0. injection Hc0 as <- <-.
  step Hc. cbv [modify] in Hc0. injection Hc0 as <- <-.
  cbv [log] in Hc. injection Hc as <- <-.
  step H. cbv [set_workload log] in Hc. injection Hc as <- <-.
  step H. unfold coordinator_get_event_handlers in Hc.
  step Hc. cbv [the_coordinator] in Hc0. simpl in Hc0. injection Hc0 as <- <-.
  step Hc. cbv [log] in Hc0. injection Hc0 as <- <-.
  cbv [sret] in Hc. injection Hc as <- <-.
  step H. unfold Simulator in Hc.
  step Hc. cbv [modify] in Hc0. injection Hc0 as <- <-.
  cbv [log] in Hc. injection Hc as <- <-.
  step H. unfold coordinator_register in Hc.
  step Hc. cbv [the_coordinator] in Hc0. simpl in Hc0. injection Hc0 as <- <-.
  step Hc. cbv [get_registered] in Hc0. injection Hc0 as <- <-.
  step Hc. cbv [modify] in Hc0. injection Hc0 as <- <-.
  cbv [log] in Hc. injection Hc as <- <-.
  step H.
  match type of Hc with print_info ?w0 = _ =>
    destruct (print_info_appends w0 m eq_refl)
      as (wp & Hpi & Ho1 & _ & _ & _ & Hm1 & Hca1) end.
  rewrite Hpi in Hc. injection Hc as <- <-.
  step H. cbv [print] in Hc. injection Hc as <- <-.
  step H. unfold simulator_run in Hc.
  step Hc. cbv [log] in Hc0. injection Hc0 as <- <-.
  step Hc. cbv [the_coordinator] in Hc0. simpl in Hc0.
  rewrite Hm1, Hca1 in Hc0. simpl in Hc0. injection Hc0 as <- <-.
  step Hc. cbv [lift] in Hc0.
  destruct (kernel_run _ _) as [co'|err] eqn:Ek; [|discriminate].
  injection Hc0 as <- <-.
  destruct (managers co') as [|m' [|m'' ms]] eqn:Ems; [discriminate | | discriminate].
  step Hc. cbv [modify] in Hc0. injection Hc0 as <- <-.
  cbv [modify] in Hc. injection Hc as <- <-.
  step H. unfold coordinator_get_current_time in Hc.
  step Hc. cbv [the_coordinator] in Hc0. simpl in Hc0. injection Hc0 as <- <-.
  step Hc. cbv [log] in Hc0. injection Hc0 as <- <-.
  cbv [sret] in Hc. injection Hc as <- <-.
  step H. cbv [log] in Hc. injection Hc as <- <-.
  step H. cbv [log] in Hc. injection Hc as <- <-.
  step H. cbv [print] in Hc. injection Hc as <- <-.
  cbv [sret] in H. injection H as <- <-.
  exists m, co', m'. repeat split; auto.
  simpl. rewrite Ho1. reflexivity.
Qed.





(** Line 141 after [simulator.run()]: a completed run reports as
    [elapsed_instructions] the total number of instructions the kernel
    retired during the run, across all model switches ([0] if none). *)
Theorem elapsed_reports_retired : forall args evs v w,
  script evs (init_world args) = Ok (v, w) ->
  v = py_or (PyInt (total_retired evs)) (PyInt 0).
Proof.
  intros args evs v w H.
  destruct (script_inv _ _ _ _ H) as (m & co' & m' & Hm & Hk & Hms & Hv & _).
  destruct (new_manager_ok _ _ Hm) as (_ & _ & Hi).
  destruct (kernel_run_global _ _ _ Hk) as [Hg _].
  unfold global_instructions in Hg. rewrite Hms in Hg.
  cbn [length fold_right managers carry] in Hg.
  rewrite Hi in Hg.
  assert (Heq : carry co' + (insts m' + 0) = total_retired evs) by lia.
  rewrite Hv. unfold elapsed_instructions, get_current_time, global_instructions.
  simpl. rewrite Heq. reflexivity.
Qed.

Lemma elapsed_reports_retired_witness :
  exists w,
    script [Retired 1000; Raised MAX_INSTS; Retired 200; Raised MAX_INSTS]
      (init_world scenario_cfg) = Ok (PyInt 1200, w).
Proof.
  destruct (script [Retired 1000; Raised MAX_INSTS; Retired 200; Raised MAX_INSTS]
              (init_world scenario_cfg)) as [[v w]|e] eqn:E.
  - exists w. f_equal. f_equal.
    exact (elapsed_reports_retired scenario_cfg
             [Retired 1000; Raised MAX_INSTS; Retired 200; Raised MAX_INSTS] v w E).
  - vm_compute in E. discriminate.
Defined.


